(** * Attribute registers of HHVM: [hphp/runtime/base/attr.h]

    A shallow embedding of the [Attr] bit-flag enumeration, of its
    combination and mutation operators and of the visibility decoder,
    together with the properties of the bit layout. *)

From Stdlib Require Import ZArith Lia Bool List String.
Import ListNotations.

Local Open Scope Z_scope.

(** ** Integer conversions of the C++ abstract machine

    [Attr] is an unscoped enumeration whose largest enumerator is
    [1u << 31]; its underlying type is therefore [unsigned int] and its
    values are the 32-bit patterns.  Values are carried by [Z] and every
    conversion the source performs is written out. *)
Module Cxx.

(** Conversion to [unsigned int]: reduction modulo [2^32]. *)
Definition to_uint (x : Z) : Z := x mod 2 ^ 32.

(** Conversion to [int]: the two's complement reading of the low 32 bits. *)
Definition to_int (x : Z) : Z := (x + 2 ^ 31) mod 2 ^ 32 - 2 ^ 31.

(** [1u << k] on [unsigned int]. *)
Definition shl1u (k : Z) : Z := to_uint (Z.shiftl 1 k).

(** [~x] on [unsigned int]. *)
Definition uint_not (x : Z) : Z := to_uint (Z.lnot (to_uint x)).

(** [x & y] after the promotion of both operands to [unsigned int]. *)
Definition uint_and (x y : Z) : Z := Z.land (to_uint x) (to_uint y).

(** [x | y] on [int]. *)
Definition int_or (x y : Z) : Z := Z.lor x y.

End Cxx.

Module HPHP.

Import Cxx.

(** The register type: a value of the enumeration, that is, a 32-bit
    pattern. *)
Definition Attr : Type := Z.

Definition is_attr (a : Attr) : Prop := 0 <= a < 2 ^ 32.

(** The functional cast [Attr(x)]. *)
Definition Attr_of (x : Z) : Attr := to_uint x.

(** The enumerators of [enum Attr], in declaration order.  Several of
    them carry the same value; they remain distinct names. *)
Inductive AttrName : Set :=
| AttrNone
| AttrForbidDynamicProps
| AttrDeepInit
| AttrPublic
| AttrProtected
| AttrPrivate
| AttrEnum
| AttrSystemInitialValue
| AttrNoImplicitNullable
| AttrStatic
| AttrAbstract
| AttrFinal
| AttrInterface
| AttrLSB
| AttrSupportsAsyncEagerReturn
| AttrTrait
| AttrNoInjection
| AttrInitialSatisfiesTC
| AttrUnique
| AttrNoBadRedeclare
| AttrInterceptable
| AttrSealed
| AttrLateInit
| AttrNoExpandTrait
| AttrNoOverride
| AttrPersistent
| AttrDynamicallyCallable
| AttrDynamicallyConstructible
| AttrBuiltin
| AttrIsConst
| AttrNoReifiedInit
| AttrIsMethCaller
| AttrIsClosureClass
| AttrHasClosureCoeffectsProp
| AttrHasCoeffectRules
| AttrIsReadonly
| AttrIsFoldable
| AttrNoFCallBuiltin
| AttrVariadicParam
| AttrProvenanceSkipFrame
| AttrEnumClass
| AttrUnusedMaxAttr.

Scheme Equality for AttrName.

(** The value the enumeration gives to each enumerator. *)
Definition mask (n : AttrName) : Attr :=
  match n with
  | AttrNone                     => 0
  | AttrForbidDynamicProps       => shl1u 0
  | AttrDeepInit                 => shl1u 0
  | AttrPublic                   => shl1u 1
  | AttrProtected                => shl1u 2
  | AttrPrivate                  => shl1u 3
  | AttrEnum                     => shl1u 4
  | AttrSystemInitialValue       => shl1u 5
  | AttrNoImplicitNullable       => shl1u 6
  | AttrStatic                   => shl1u 4
  | AttrAbstract                 => shl1u 5
  | AttrFinal                    => shl1u 6
  | AttrInterface                => shl1u 7
  | AttrLSB                      => shl1u 7
  | AttrSupportsAsyncEagerReturn => shl1u 7
  | AttrTrait                    => shl1u 8
  | AttrNoInjection              => shl1u 9
  | AttrInitialSatisfiesTC       => shl1u 9
  | AttrUnique                   => shl1u 10
  | AttrNoBadRedeclare           => shl1u 10
  | AttrInterceptable            => shl1u 11
  | AttrSealed                   => shl1u 11
  | AttrLateInit                 => shl1u 11
  | AttrNoExpandTrait            => shl1u 12
  | AttrNoOverride               => shl1u 13
  | AttrPersistent               => shl1u 18
  | AttrDynamicallyCallable      => shl1u 19
  | AttrDynamicallyConstructible => shl1u 19
  | AttrBuiltin                  => shl1u 20
  | AttrIsConst                  => shl1u 21
  | AttrNoReifiedInit            => shl1u 23
  | AttrIsMethCaller             => shl1u 24
  | AttrIsClosureClass           => shl1u 24
  | AttrHasClosureCoeffectsProp  => shl1u 25
  | AttrHasCoeffectRules         => shl1u 25
  | AttrIsReadonly               => shl1u 26
  | AttrIsFoldable               => shl1u 26
  | AttrNoFCallBuiltin           => shl1u 27
  | AttrVariadicParam            => shl1u 28
  | AttrProvenanceSkipFrame      => shl1u 29
  | AttrEnumClass                => shl1u 30
  | AttrUnusedMaxAttr            => shl1u 31
  end.

(** The three columns of the table kept in the comments of the
    enumeration. *)
Inductive SubjectKind : Set := Class | Property | Method.

(** The [X] marks of the table: [marked k n] holds when the line of
    enumerator [n] has an [X] in the column of kind [k]. *)
Definition marked (k : SubjectKind) (n : AttrName) : bool :=
  match n, k with
  | AttrForbidDynamicProps, Class => true
  | AttrDeepInit, Property => true
  | AttrPublic, (Property | Method) => true
  | AttrProtected, (Property | Method) => true
  | AttrPrivate, (Property | Method) => true
  | AttrEnum, Class => true
  | AttrSystemInitialValue, Property => true
  | AttrNoImplicitNullable, Property => true
  | AttrStatic, (Property | Method) => true
  | AttrAbstract, (Class | Method) => true
  | AttrFinal, (Class | Method) => true
  | AttrInterface, Class => true
  | AttrLSB, Property => true
  | AttrSupportsAsyncEagerReturn, Method => true
  | AttrTrait, _ => true
  | AttrNoInjection, Method => true
  | AttrInitialSatisfiesTC, Property => true
  | AttrUnique, (Class | Method) => true
  | AttrNoBadRedeclare, Property => true
  | AttrInterceptable, Method => true
  | AttrSealed, Class => true
  | AttrLateInit, Property => true
  | AttrNoExpandTrait, Class => true
  | AttrNoOverride, (Class | Method) => true
  | AttrPersistent, _ => true
  | AttrDynamicallyCallable, Method => true
  | AttrDynamicallyConstructible, Class => true
  | AttrBuiltin, (Class | Method) => true
  | AttrIsConst, (Class | Property) => true
  | AttrNoReifiedInit, Class => true
  | AttrIsMethCaller, Method => true
  | AttrIsClosureClass, Class => true
  | AttrHasClosureCoeffectsProp, Class => true
  | AttrHasCoeffectRules, Method => true
  | AttrIsReadonly, Property => true
  | AttrIsFoldable, Method => true
  | AttrNoFCallBuiltin, Method => true
  | AttrVariadicParam, Method => true
  | AttrProvenanceSkipFrame, Method => true
  | AttrEnumClass, Class => true
  | _, _ => false
  end.

(** Applicability of an enumerator to a kind.  The line of [AttrNone]
    carries the three column titles instead of marks: the empty set is a
    register of every kind.  [AttrUnusedMaxAttr] has no column at all. *)
Definition applicable (k : SubjectKind) (n : AttrName) : bool :=
  match n with
  | AttrNone => true
  | _ => marked k n
  end.

(** Every enumerator, in declaration order. *)
Definition catalog : list AttrName :=
  [ AttrNone; AttrForbidDynamicProps; AttrDeepInit; AttrPublic;
    AttrProtected; AttrPrivate; AttrEnum; AttrSystemInitialValue;
    AttrNoImplicitNullable; AttrStatic; AttrAbstract; AttrFinal;
    AttrInterface; AttrLSB; AttrSupportsAsyncEagerReturn; AttrTrait;
    AttrNoInjection; AttrInitialSatisfiesTC; AttrUnique;
    AttrNoBadRedeclare; AttrInterceptable; AttrSealed; AttrLateInit;
    AttrNoExpandTrait; AttrNoOverride; AttrPersistent;
    AttrDynamicallyCallable; AttrDynamicallyConstructible; AttrBuiltin;
    AttrIsConst; AttrNoReifiedInit; AttrIsMethCaller; AttrIsClosureClass;
    AttrHasClosureCoeffectsProp; AttrHasCoeffectRules; AttrIsReadonly;
    AttrIsFoldable; AttrNoFCallBuiltin; AttrVariadicParam;
    AttrProvenanceSkipFrame; AttrEnumClass; AttrUnusedMaxAttr ].

(** The shift count of each enumerator, [None] for [AttrNone]. *)
Definition bitpos (n : AttrName) : option Z :=
  match n with
  | AttrNone => None
  | _ => Some (Z.log2 (mask n))
  end.

(** The bit of enumerator [n] is set in register [r]. *)
Definition bit_set (r : Attr) (n : AttrName) : bool :=
  match bitpos n with
  | Some k => Z.testbit r k
  | None => false
  end.

(** [constexpr Attr operator|(Attr a, Attr b)]. *)
Definition op_or (a b : Attr) : Attr :=
  Attr_of (int_or (to_int a) (to_int b)).

(** [Attr& operator|=(Attr& a, const Attr& b)]: the value stored in [a],
    which is also the value of the returned reference. *)
Definition op_or_assign (a b : Attr) : Attr :=
  Attr_of (int_or (to_int a) (to_int b)).

(** [void attrSetter(Attr& attrs, bool set, Attr what)]: the value left
    in [attrs]. *)
Definition attrSetter (attrs : Attr) (set : bool) (what : Attr) : Attr :=
  if set then op_or_assign attrs what
  else Attr_of (uint_and attrs (uint_not what)).

(** [constexpr Attr VisibilityAttrs]. *)
Definition VisibilityAttrs : Attr :=
  op_or (op_or (mask AttrPublic) (mask AttrProtected)) (mask AttrPrivate).

(** The contextual conversion to [bool] of an [unsigned int]. *)
Definition truthy (x : Z) : bool := negb (x =? 0).

(** [const char* attrToVisibilityStr(Attr attr)]. *)
Definition attrToVisibilityStr (attr : Attr) : string :=
  if truthy (uint_and attr (mask AttrPrivate)) then "private"%string
  else if truthy (uint_and attr (mask AttrProtected)) then "protected"%string
  else "public"%string.

(** Modelled from the spec: the header has no flag-query function; the
    query [hasFlag(register, flag)] is the expression
    [(register & flag) == flag], all bits of the mask being required. *)
Definition hasFlag (register flag : Attr) : bool :=
  uint_and register flag =? to_uint flag.

(** A mask [m] lies within the [w] low bit positions. *)
Definition within_low_bits (w : Z) (m : Attr) : Prop :=
  forall i, Z.testbit m i = true -> 0 <= i < w.

(** The enumerators above the 28 low positions. *)
Definition above_28 (n : AttrName) : bool :=
  match n with
  | AttrVariadicParam | AttrProvenanceSkipFrame | AttrEnumClass => true
  | _ => false
  end.

(** Two registers agree on every bit position except position 31. *)
Definition differ_only_in_bit31 (r r' : Attr) : Prop :=
  forall i, i <> 31 -> Z.testbit r i = Z.testbit r' i.

(** The queries that concern enumerators other than the reserved one:
    two registers answer them alike. *)
Definition same_queries (r r' : Attr) : Prop :=
  (forall n, n <> AttrUnusedMaxAttr ->
             hasFlag r (mask n) = hasFlag r' (mask n))
  /\ hasFlag r VisibilityAttrs = hasFlag r' VisibilityAttrs
  /\ attrToVisibilityStr r = attrToVisibilityStr r'.

(** The exhaustive check of the table for one kind: two distinct
    applicable names have masks whose intersection is empty. *)
Definition disjoint_on (k : SubjectKind) : bool :=
  forallb (fun a =>
    forallb (fun b =>
      implb (applicable k a && applicable k b && negb (AttrName_beq a b))
            (uint_and (mask a) (mask b) =? 0))
      catalog)
    catalog.

(** The highest bit position carrying a mark in the column of a kind. *)
Definition top_position (k : SubjectKind) : Z :=
  fold_right Z.max 0
    (map (fun n => Z.log2 (mask n)) (filter (marked k) catalog)).

(** Some enumerator has bit position [i] set. *)
Definition used_position (i : Z) : bool :=
  existsb (fun n => Z.testbit (mask n) i) catalog.

(** The positions below 32 that the enumeration leaves free. *)
Definition free_positions : list Z :=
  filter (fun i => negb (used_position i)) (map Z.of_nat (seq 0 32)).

End HPHP.

Import Cxx HPHP.

(** ** Bit-level facts about the conversions *)

Section Conversions.

Lemma to_uint_bits (x i : Z) :
  Z.testbit (to_uint x) i = (i <? 32) && Z.testbit x i.
Proof.
  unfold to_uint.
  destruct (Z.ltb_spec i 0) as [Hneg | Hpos].
  - rewrite !Z.testbit_neg_r by assumption. now rewrite andb_false_r.
  - destruct (Z.ltb_spec i 32).
    + now rewrite Z.mod_pow2_bits_low by lia.
    + now rewrite Z.mod_pow2_bits_high by lia.
Qed.

Lemma to_uint_range (x : Z) : is_attr (to_uint x).
Proof. unfold is_attr, to_uint. apply Z.mod_pos_bound. lia. Qed.

Lemma to_uint_small (x : Z) : is_attr x -> to_uint x = x.
Proof. unfold is_attr, to_uint. intros H. now apply Z.mod_small. Qed.

Lemma to_uint_to_int (x : Z) : to_uint (to_int x) = to_uint x.
Proof.
  unfold to_uint, to_int.
  rewrite Zminus_mod, Zmod_mod, <- Zminus_mod.
  f_equal. lia.
Qed.

Lemma is_attr_bits_high (x i : Z) :
  is_attr x -> 32 <= i -> Z.testbit x i = false.
Proof.
  intros Hx Hi. rewrite <- (to_uint_small x Hx), to_uint_bits.
  destruct (Z.ltb_spec i 32); [lia | reflexivity].
Qed.

End Conversions.

(** A goal between two integers is reduced to their bits; the bits of the
    conversions and of the bitwise operators are then unfolded. *)
Ltac bits i :=
  apply Z.bits_inj'; intros i ?;
  repeat first
    [ rewrite to_uint_bits
    | rewrite Z.lor_spec
    | rewrite Z.land_spec
    | rewrite Z.ldiff_spec
    | rewrite Z.lnot_spec by assumption ].

Ltac bool_cases :=
  repeat match goal with
    | |- context [Z.testbit ?x ?i] => destruct (Z.testbit x i)
    | |- context [?i <? ?n] => destruct (i <? n)
    end; try reflexivity; try discriminate.

(** ** Closed forms of the operators *)

Section Operators.

Lemma to_int_bits_low (x i : Z) :
  (i <? 32) && Z.testbit (to_int x) i = (i <? 32) && Z.testbit x i.
Proof. now rewrite <- !to_uint_bits, to_uint_to_int. Qed.

Lemma op_or_wrap (a b : Attr) : op_or a b = to_uint (Z.lor a b).
Proof.
  unfold op_or, Attr_of, int_or.
  bits i.
  now rewrite !andb_orb_distrib_r, !to_int_bits_low.
Qed.

Lemma op_or_assign_wrap (a b : Attr) :
  op_or_assign a b = to_uint (Z.lor a b).
Proof. exact (op_or_wrap a b). Qed.

Lemma lor_range (a b : Attr) : is_attr a -> is_attr b -> is_attr (Z.lor a b).
Proof.
  intros Ha Hb.
  assert (E : to_uint (Z.lor a b) = Z.lor a b).
  { bits i.
    destruct (Z.ltb_spec i 32); [reflexivity |].
    now rewrite !is_attr_bits_high by assumption. }
  rewrite <- E. apply to_uint_range.
Qed.

Lemma op_or_lor (a b : Attr) :
  is_attr a -> is_attr b -> op_or a b = Z.lor a b.
Proof.
  intros Ha Hb. rewrite op_or_wrap.
  now apply to_uint_small, lor_range.
Qed.

Lemma clear_wrap (r f : Attr) :
  attrSetter r false f = to_uint (Z.land r (Z.lnot f)).
Proof.
  unfold attrSetter, Attr_of, uint_and, uint_not.
  bits i. bool_cases.
Qed.

Lemma clear_land_lnot (r f : Attr) :
  is_attr r -> attrSetter r false f = Z.land r (Z.lnot f).
Proof.
  intros Hr. rewrite clear_wrap.
  bits i.
  destruct (Z.ltb_spec i 32); [reflexivity |].
  now rewrite (is_attr_bits_high r) by assumption.
Qed.

Lemma uint_and_land (x y : Z) :
  is_attr y -> uint_and x y = Z.land x y.
Proof.
  intros Hy. unfold uint_and.
  bits i.
  destruct (Z.ltb_spec i 32); [reflexivity |].
  rewrite (is_attr_bits_high y) by assumption.
  now rewrite !andb_false_r.
Qed.

End Operators.

(** ** Facts about the table of enumerators *)

Section Catalog.

Lemma catalog_complete (n : AttrName) : In n catalog.
Proof. destruct n; vm_compute; tauto. Qed.

Lemma mask_range (n : AttrName) : is_attr (mask n).
Proof. destruct n; vm_compute; split; congruence. Qed.

(** Every enumerator but [AttrNone] is one bit, at its shift count. *)
Lemma mask_shape (n : AttrName) :
  match bitpos n with
  | None => n = AttrNone /\ mask n = 0
  | Some k => n <> AttrNone /\ 0 <= k < 32 /\ mask n = 2 ^ k
  end.
Proof. destruct n; vm_compute; repeat split; congruence. Qed.

Lemma AttrName_beq_neq (a b : AttrName) : a <> b -> AttrName_beq a b = false.
Proof.
  intros Hne. destruct (AttrName_beq a b) eqn:E; [| reflexivity].
  destruct a, b; solve [discriminate E | elim Hne; reflexivity].
Qed.

Lemma pow2_range (k : Z) : 0 <= k < 32 -> is_attr (2 ^ k).
Proof.
  intros Hk. unfold is_attr. split; [apply Z.pow_nonneg; lia |].
  apply Z.pow_lt_mono_r; lia.
Qed.

Lemma land_pow2 (r k : Z) :
  0 <= k -> Z.land r (2 ^ k) = if Z.testbit r k then 2 ^ k else 0.
Proof.
  intros Hk. apply Z.bits_inj'. intros i Hi.
  rewrite Z.land_spec, Z.pow2_bits_eqb by assumption.
  destruct (Z.eqb_spec k i) as [-> | Hne].
  - destruct (Z.testbit r i); [| now rewrite Z.bits_0].
    rewrite Z.pow2_bits_eqb by assumption. now rewrite Z.eqb_refl.
  - rewrite andb_false_r.
    destruct (Z.testbit r k); [| now rewrite Z.bits_0].
    rewrite Z.pow2_bits_eqb by assumption.
    symmetry. now apply Z.eqb_neq.
Qed.

Lemma uint_and_pow2 (r k : Z) :
  0 <= k < 32 -> uint_and r (2 ^ k) = if Z.testbit r k then 2 ^ k else 0.
Proof.
  intros Hk. rewrite uint_and_land by now apply pow2_range.
  apply land_pow2. lia.
Qed.

Lemma truthy_single (r k : Z) :
  0 <= k < 32 -> truthy (uint_and r (2 ^ k)) = Z.testbit r k.
Proof.
  intros Hk. rewrite uint_and_pow2 by assumption. unfold truthy.
  assert (0 < 2 ^ k) by (apply Z.pow_pos_nonneg; lia).
  destruct (Z.testbit r k).
  - destruct (Z.eqb_spec (2 ^ k) 0); [lia | reflexivity].
  - reflexivity.
Qed.

Lemma hasFlag_single (r k : Z) :
  0 <= k < 32 -> hasFlag r (2 ^ k) = Z.testbit r k.
Proof.
  intros Hk. unfold hasFlag.
  rewrite uint_and_pow2 by assumption.
  rewrite to_uint_small by now apply pow2_range.
  assert (0 < 2 ^ k) by (apply Z.pow_pos_nonneg; lia).
  destruct (Z.testbit r k).
  - apply Z.eqb_refl.
  - apply Z.eqb_neq. lia.
Qed.

Lemma hasFlag_zero (r : Z) : hasFlag r 0 = true.
Proof. unfold hasFlag, uint_and. now rewrite Z.land_0_r. Qed.

Lemma hasFlag_bit_set (r : Attr) (n : AttrName) :
  n <> AttrNone -> hasFlag r (mask n) = bit_set r n.
Proof.
  intros Hn. unfold bit_set.
  pose proof (mask_shape n) as S.
  destruct (bitpos n) as [k |].
  - destruct S as (_ & Hk & ->). now apply hasFlag_single.
  - now destruct S.
Qed.

Lemma within_low_bits_lt (w m : Z) :
  0 <= w -> 0 <= m < 2 ^ w -> within_low_bits w m.
Proof.
  intros Hw Hm i Hi.
  destruct (Z.ltb_spec i 0) as [Hneg | Hpos].
  - now rewrite Z.testbit_neg_r in Hi.
  - split; [assumption |].
    destruct (Z.ltb_spec i w) as [Hlt | Hge]; [assumption |].
    rewrite <- (Z.mod_small m (2 ^ w)) in Hi by assumption.
    now rewrite Z.mod_pow2_bits_high in Hi by lia.
Qed.

End Catalog.

(** ** Visibility decoding *)

Section Visibility.

(** C1.  [attrToVisibilityStr] decodes by fixed priority: when the bit of
    [AttrPrivate] is set in the register the result is the string
    private; otherwise, when the bit of [AttrProtected] is set, it is
    protected; otherwise, whatever the bit of [AttrPublic] and also when
    none of the three visibility bits is set, it is public. *)
Theorem attrToVisibilityStr_priority (r : Attr) :
  attrToVisibilityStr r =
    if bit_set r AttrPrivate then "private"%string
    else if bit_set r AttrProtected then "protected"%string
    else "public"%string.
Proof.
  unfold attrToVisibilityStr.
  change (mask AttrPrivate) with (2 ^ 3).
  change (mask AttrProtected) with (2 ^ 2).
  rewrite !truthy_single by lia.
  reflexivity.
Qed.

(** The two priority cases and the default, on concrete registers. *)
Example visibility_private_over_protected :
  attrToVisibilityStr (op_or (mask AttrPrivate) (mask AttrProtected))
  = "private"%string.
Proof. reflexivity. Qed.

Example visibility_protected_over_public :
  attrToVisibilityStr (op_or (mask AttrProtected) (mask AttrPublic))
  = "protected"%string.
Proof. reflexivity. Qed.

Example visibility_default :
  attrToVisibilityStr (mask AttrNone) = "public"%string.
Proof. reflexivity. Qed.

(** C8.  From the empty register, setting [AttrPrivate] and then
    [AttrStatic], both flags of a method, gives a register that has
    [AttrPrivate], lacks [AttrPublic], decodes to the string private and
    has [AttrStatic]. *)
Theorem method_private_static_example :
  let r0 := mask AttrNone in
  let r1 := attrSetter r0 true (mask AttrPrivate) in
  let r2 := attrSetter r1 true (mask AttrStatic) in
  applicable Method AttrPrivate = true
  /\ applicable Method AttrStatic = true
  /\ hasFlag r2 (mask AttrPrivate) = true
  /\ hasFlag r2 (mask AttrPublic) = false
  /\ attrToVisibilityStr r2 = "private"%string
  /\ hasFlag r2 (mask AttrStatic) = true.
Proof. vm_compute. repeat split. Qed.

End Visibility.

(** ** The mutation primitive *)

Section Setter.

Lemma set_wrap (r f : Attr) :
  attrSetter r true f = to_uint (Z.lor r f).
Proof. apply op_or_assign_wrap. Qed.

Lemma attrSetter_set_lor (r f : Attr) :
  is_attr r -> is_attr f -> attrSetter r true f = Z.lor r f.
Proof. intros Hr Hf. rewrite set_wrap. now apply to_uint_small, lor_range. Qed.

Lemma attrSetter_bits_outside (r f : Attr) :
  is_attr r -> is_attr f ->
  forall (enabled : bool) (i : Z),
    Z.testbit f i = false ->
    Z.testbit (attrSetter r enabled f) i = Z.testbit r i.
Proof.
  intros Hr Hf enabled i Hi.
  destruct (Z.ltb_spec i 0) as [Hneg | Hpos].
  - now rewrite !Z.testbit_neg_r.
  - destruct enabled.
    + rewrite attrSetter_set_lor, Z.lor_spec, Hi by assumption.
      apply orb_false_r.
    + rewrite clear_land_lnot, Z.land_spec, Z.lnot_spec, Hi by assumption.
      apply andb_true_r.
Qed.

(** C6.  On registers, [attrSetter] with [true] leaves the bitwise or of
    the register and the flag, with [false] the bitwise and of the
    register and the complement of the flag; in both cases a bit position
    outside the mask of the flag keeps its value. *)
Theorem attrSetter_semantics (r f : Attr) :
  is_attr r -> is_attr f ->
  attrSetter r true f = Z.lor r f
  /\ attrSetter r false f = Z.land r (Z.lnot f)
  /\ forall (enabled : bool) (i : Z),
       Z.testbit f i = false ->
       Z.testbit (attrSetter r enabled f) i = Z.testbit r i.
Proof.
  intros Hr Hf. repeat split.
  - now apply attrSetter_set_lor.
  - now apply clear_land_lnot.
  - now apply attrSetter_bits_outside.
Qed.

Lemma attrSetter_semantics_witness :
  let r := Z.lor (mask AttrPublic) (mask AttrFinal) in
  let f := mask AttrPublic in
  is_attr r /\ is_attr f
  /\ attrSetter r true f = Z.lor r f
  /\ attrSetter r false f = Z.land r (Z.lnot f)
  /\ forall (enabled : bool) (i : Z),
       Z.testbit f i = false ->
       Z.testbit (attrSetter r enabled f) i = Z.testbit r i.
Proof.
  assert (Hr : is_attr (Z.lor (mask AttrPublic) (mask AttrFinal)))
    by (vm_compute; split; congruence).
  assert (Hf : is_attr (mask AttrPublic))
    by (vm_compute; split; congruence).
  split; [exact Hr | split; [exact Hf |]].
  exact (attrSetter_semantics _ _ Hr Hf).
Defined.

(** C9.  [attrSetter] is idempotent: applied twice with the same flag and
    the same boolean it leaves what one application leaves. *)
Theorem attrSetter_idempotent (r f : Attr) :
  attrSetter (attrSetter r true f) true f = attrSetter r true f
  /\ attrSetter (attrSetter r false f) false f = attrSetter r false f.
Proof.
  split.
  - rewrite !set_wrap. bits i. bool_cases.
  - rewrite !clear_wrap. bits i. bool_cases.
Qed.

End Setter.

(** ** Combination *)

Section Combine.

(** C10.  [AttrNone] is neutral for combination: on a register [r],
    [r | AttrNone] and [AttrNone | r] are [r], and [r |= AttrNone] leaves
    [r] in place. *)
Theorem AttrNone_identity (r : Attr) :
  is_attr r ->
  op_or r (mask AttrNone) = r
  /\ op_or (mask AttrNone) r = r
  /\ op_or_assign r (mask AttrNone) = r.
Proof.
  intros Hr. change (mask AttrNone) with 0.
  rewrite op_or_assign_wrap, !op_or_wrap, Z.lor_0_r, Z.lor_0_l.
  rewrite to_uint_small by assumption. auto.
Qed.

Lemma AttrNone_identity_witness :
  is_attr VisibilityAttrs
  /\ op_or VisibilityAttrs (mask AttrNone) = VisibilityAttrs
  /\ op_or (mask AttrNone) VisibilityAttrs = VisibilityAttrs
  /\ op_or_assign VisibilityAttrs (mask AttrNone) = VisibilityAttrs.
Proof.
  assert (Hr : is_attr VisibilityAttrs) by (vm_compute; split; congruence).
  split; [exact Hr |].
  exact (AttrNone_identity VisibilityAttrs Hr).
Defined.

End Combine.

(** ** Queries after combination and mutation *)

Section Queries.

Lemma hasFlag_true_iff (r f : Attr) :
  is_attr f -> hasFlag r f = true <-> Z.land r f = f.
Proof.
  intros Hf. unfold hasFlag.
  rewrite uint_and_land, to_uint_small by assumption.
  apply Z.eqb_eq.
Qed.

(** A flag held by one operand is held by the combination. *)
Lemma hasFlag_op_or_mono (a b f : Attr) :
  is_attr f ->
  hasFlag a f || hasFlag b f = true -> hasFlag (op_or a b) f = true.
Proof.
  intros Hf H.
  rewrite hasFlag_true_iff by assumption.
  rewrite op_or_wrap.
  assert (Hbit : forall i, (Z.testbit a i || Z.testbit b i) && Z.testbit f i
                           = Z.testbit f i).
  { intros i. apply orb_true_iff in H. destruct H as [H | H];
      apply hasFlag_true_iff in H; try assumption;
      apply (f_equal (fun z => Z.testbit z i)) in H;
      rewrite Z.land_spec in H;
      destruct (Z.testbit a i), (Z.testbit b i), (Z.testbit f i);
      simpl in *; congruence. }
  bits i.
  destruct (Z.ltb_spec i 32).
  - apply Hbit.
  - now rewrite (is_attr_bits_high f) by assumption.
Qed.

Lemma hasFlag_op_or_single (a b : Attr) (n : AttrName) :
  hasFlag (op_or a b) (mask n)
  = hasFlag a (mask n) || hasFlag b (mask n).
Proof.
  pose proof (mask_shape n) as S.
  destruct (bitpos n) as [k |].
  - destruct S as (_ & Hk & ->).
    rewrite !hasFlag_single by assumption.
    rewrite op_or_wrap, to_uint_bits, Z.lor_spec.
    destruct (Z.ltb_spec k 32); [reflexivity | lia].
  - destruct S as (_ & ->). now rewrite !hasFlag_zero.
Qed.

(** C2, as amended.  For every enumerator of [Attr] (one bit each, or the
    empty [AttrNone]) the combination of two registers has the flag
    exactly when one of them has it.  For a mask of several bits such as
    [VisibilityAttrs] only one direction holds: the combination has the
    flag as soon as one of the two registers has it. *)
Theorem hasFlag_union (a b : Attr) :
  (forall n : AttrName,
      hasFlag (op_or a b) (mask n)
      = hasFlag a (mask n) || hasFlag b (mask n))
  /\ (hasFlag a VisibilityAttrs || hasFlag b VisibilityAttrs = true ->
      hasFlag (op_or a b) VisibilityAttrs = true).
Proof.
  split.
  - intros n. apply hasFlag_op_or_single.
  - apply hasFlag_op_or_mono. vm_compute. split; congruence.
Qed.

Lemma hasFlag_union_witness :
  let a := VisibilityAttrs in
  let b := mask AttrFinal in
  hasFlag a VisibilityAttrs || hasFlag b VisibilityAttrs = true
  /\ hasFlag (op_or a b) (mask AttrFinal)
     = hasFlag a (mask AttrFinal) || hasFlag b (mask AttrFinal)
  /\ hasFlag (op_or a b) VisibilityAttrs = true.
Proof.
  assert (H : hasFlag VisibilityAttrs VisibilityAttrs
              || hasFlag (mask AttrFinal) VisibilityAttrs = true)
    by reflexivity.
  split; [exact H |].
  destruct (hasFlag_union VisibilityAttrs (mask AttrFinal)) as [Hone Hmany].
  split; [exact (Hone AttrFinal) | exact (Hmany H)].
Defined.

(** C2, as stated, fails on the mask of several bits: [AttrPublic]
    combined with [AttrProtected | AttrPrivate] has all the bits of
    [VisibilityAttrs] although neither operand has them all. *)
Lemma hasFlag_union_VisibilityAttrs_counterexample :
  let a := mask AttrPublic in
  let b := op_or (mask AttrProtected) (mask AttrPrivate) in
  hasFlag (op_or a b) VisibilityAttrs
  <> hasFlag a VisibilityAttrs || hasFlag b VisibilityAttrs.
Proof. vm_compute. discriminate. Qed.

(** C3, as amended.  For every register and every enumerator applicable
    to its kind, the flag is held after [attrSetter] with [true]; for
    every such enumerator other than [AttrNone] it is not held after
    [attrSetter] with [false].  [AttrNone] has the empty mask, which
    every register holds, also after clearing. *)
Theorem setFlag_round_trip (k : SubjectKind) (n : AttrName) (r : Attr) :
  applicable k n = true ->
  hasFlag (attrSetter r true (mask n)) (mask n) = true
  /\ (n <> AttrNone ->
      hasFlag (attrSetter r false (mask n)) (mask n) = false)
  /\ (n = AttrNone ->
      hasFlag (attrSetter r false (mask n)) (mask n) = true).
Proof.
  intros _.
  pose proof (mask_shape n) as S.
  destruct (bitpos n) as [p |].
  - destruct S as (Hn & Hp & ->).
    rewrite !hasFlag_single by assumption.
    rewrite set_wrap, clear_wrap, !to_uint_bits.
    rewrite Z.lor_spec, Z.land_spec, Z.lnot_spec by lia.
    rewrite Z.pow2_bits_eqb, Z.eqb_refl by lia.
    repeat split.
    + destruct (Z.ltb_spec p 32); [| lia]. simpl. apply orb_true_r.
    + intros _. simpl. now rewrite !andb_false_r.
    + intros E. contradiction.
  - destruct S as (-> & _). change (mask AttrNone) with 0.
    rewrite !hasFlag_zero. repeat split. congruence.
Qed.

Lemma setFlag_round_trip_witness :
  applicable Class AttrFinal = true
  /\ AttrFinal <> AttrNone
  /\ hasFlag (attrSetter (mask AttrEnum) true (mask AttrFinal))
             (mask AttrFinal) = true
  /\ hasFlag (attrSetter (mask AttrEnum) false (mask AttrFinal))
             (mask AttrFinal) = false.
Proof.
  assert (Ha : applicable Class AttrFinal = true) by reflexivity.
  assert (Hn : AttrFinal <> AttrNone) by discriminate.
  destruct (setFlag_round_trip Class AttrFinal (mask AttrEnum) Ha)
    as (Hset & Hclr & _).
  split; [exact Ha | split; [exact Hn | split; [exact Hset | exact (Hclr Hn)]]].
Defined.

(** C3, as stated, fails on [AttrNone], which the claim counts as
    applicable to every kind: clearing it leaves a register that still
    holds the empty mask. *)
Lemma setFlag_round_trip_AttrNone_counterexample :
  applicable Method AttrNone = true
  /\ hasFlag (attrSetter (mask AttrNone) false (mask AttrNone))
             (mask AttrNone) <> false.
Proof. split; [reflexivity | vm_compute; discriminate]. Qed.

End Queries.

(** ** The bit layout *)

Section Layout.

Lemma disjoint_on_all (k : SubjectKind) : disjoint_on k = true.
Proof. destruct k; vm_compute; reflexivity. Qed.

(** C4.  Within one kind, two distinct applicable enumerators have masks
    whose bitwise and is zero: no bit position is set in both. *)
Theorem intra_kind_disjoint (k : SubjectKind) (a b : AttrName) :
  applicable k a = true -> applicable k b = true -> a <> b ->
  Z.land (mask a) (mask b) = 0
  /\ forall i, Z.testbit (mask a) i = true -> Z.testbit (mask b) i = false.
Proof.
  intros Ha Hb Hne.
  assert (H0 : Z.land (mask a) (mask b) = 0).
  { pose proof (disjoint_on_all k) as D. unfold disjoint_on in D.
    rewrite forallb_forall in D.
    specialize (D a (catalog_complete a)).
    rewrite forallb_forall in D.
    specialize (D b (catalog_complete b)).
    rewrite Ha, Hb, (AttrName_beq_neq a b Hne) in D. simpl in D.
    rewrite uint_and_land in D by apply mask_range.
    now apply Z.eqb_eq. }
  split; [exact H0 |].
  intros i Hi.
  apply (f_equal (fun z => Z.testbit z i)) in H0.
  rewrite Z.land_spec, Hi, Z.bits_0 in H0. exact H0.
Qed.

Lemma intra_kind_disjoint_witness :
  applicable Method AttrStatic = true
  /\ applicable Method AttrAbstract = true
  /\ AttrStatic <> AttrAbstract
  /\ Z.land (mask AttrStatic) (mask AttrAbstract) = 0.
Proof.
  assert (Ha : applicable Method AttrStatic = true) by reflexivity.
  assert (Hb : applicable Method AttrAbstract = true) by reflexivity.
  assert (Hne : AttrStatic <> AttrAbstract) by discriminate.
  repeat (split; [assumption |]).
  exact (proj1 (intra_kind_disjoint Method AttrStatic AttrAbstract Ha Hb Hne)).
Defined.

(** Across kinds a position is reused: the check is per kind only. *)
Example inter_kind_reuse :
  mask AttrEnum = mask AttrStatic
  /\ applicable Class AttrEnum = true
  /\ applicable Class AttrStatic = false.
Proof. repeat split. Qed.

(** C5, as amended.  Every enumerator other than the reserved
    [AttrUnusedMaxAttr] lies within the 31 low bit positions, 0 to 30;
    all of them except [AttrVariadicParam] (28),
    [AttrProvenanceSkipFrame] (29) and [AttrEnumClass] (30) lie within the
    28 low positions, 0 to 27. *)
Theorem width_budget (n : AttrName) :
  n <> AttrUnusedMaxAttr ->
  within_low_bits 31 (mask n)
  /\ (above_28 n = false -> within_low_bits 28 (mask n)).
Proof.
  intros Hn. split.
  - apply within_low_bits_lt; [lia |].
    destruct n; solve [vm_compute; split; congruence | now elim Hn].
  - intros H28. apply within_low_bits_lt; [lia |].
    destruct n; solve [vm_compute; split; congruence | discriminate H28].
Qed.

Lemma width_budget_witness :
  AttrNoFCallBuiltin <> AttrUnusedMaxAttr
  /\ above_28 AttrNoFCallBuiltin = false
  /\ within_low_bits 31 (mask AttrNoFCallBuiltin)
  /\ within_low_bits 28 (mask AttrNoFCallBuiltin).
Proof.
  assert (Hn : AttrNoFCallBuiltin <> AttrUnusedMaxAttr) by discriminate.
  assert (H28 : above_28 AttrNoFCallBuiltin = false) by reflexivity.
  destruct (width_budget AttrNoFCallBuiltin Hn) as [H31 Hlow].
  split; [exact Hn | split; [exact H28 | split; [exact H31 | exact (Hlow H28)]]].
Defined.

(** C5, as stated, fails: [AttrVariadicParam], in active use for methods,
    is bit 28. *)
Lemma width_budget_counterexample :
  AttrVariadicParam <> AttrUnusedMaxAttr
  /\ applicable Method AttrVariadicParam = true
  /\ ~ within_low_bits 28 (mask AttrVariadicParam).
Proof.
  split; [discriminate | split; [reflexivity |]].
  intros H. specialize (H 28 eq_refl). lia.
Qed.

End Layout.

(** ** The reserved top bit *)

Section Sentinel.

Lemma sentinel_toggle (r : Attr) (b : bool) :
  is_attr r ->
  differ_only_in_bit31 r (attrSetter r b (mask AttrUnusedMaxAttr)).
Proof.
  intros Hr i Hi.
  assert (Hf : Z.testbit (mask AttrUnusedMaxAttr) i = false).
  { change (mask AttrUnusedMaxAttr) with (2 ^ 31).
    destruct (Z.ltb_spec i 0); [now apply Z.testbit_neg_r |].
    rewrite Z.pow2_bits_eqb by lia. apply Z.eqb_neq. lia. }
  symmetry.
  apply (attrSetter_bits_outside r (mask AttrUnusedMaxAttr) Hr
           (mask_range AttrUnusedMaxAttr) b i Hf).
Qed.

Lemma uint_and_low_mask (r r' m : Attr) :
  differ_only_in_bit31 r r' -> 0 <= m < 2 ^ 31 ->
  uint_and r m = uint_and r' m.
Proof.
  intros Hd Hm. unfold uint_and. bits i.
  destruct (Z.eq_dec i 31) as [-> | Hne].
  - assert (Z.testbit m 31 = false) as ->.
    { rewrite <- (Z.mod_small m (2 ^ 31)) by assumption.
      apply Z.mod_pow2_bits_high. lia. }
    now rewrite !andb_false_r.
  - now rewrite (Hd i Hne).
Qed.

Lemma differ_same_queries (r r' : Attr) :
  differ_only_in_bit31 r r' -> same_queries r r'.
Proof.
  intros Hd. unfold same_queries, hasFlag, attrToVisibilityStr.
  repeat split.
  - intros n Hn. f_equal. apply uint_and_low_mask; [assumption |].
    destruct n; solve [vm_compute; split; congruence | now elim Hn].
  - f_equal. apply uint_and_low_mask; [assumption |].
    vm_compute; split; congruence.
  - rewrite (uint_and_low_mask r r' (mask AttrPrivate) Hd),
            (uint_and_low_mask r r' (mask AttrProtected) Hd);
      [reflexivity | |]; vm_compute; split; congruence.
Qed.

(** C7.  The reserved top bit is inert: two registers that differ only
    in bit 31 give the same [hasFlag] answer for every enumerator other
    than [AttrUnusedMaxAttr] and for [VisibilityAttrs], and the same
    [attrToVisibilityStr]; in particular setting or clearing
    [AttrUnusedMaxAttr] in a register changes none of these answers. *)
Theorem sentinel_bit_inert (r r' : Attr) (enabled : bool) :
  (differ_only_in_bit31 r r' -> same_queries r r')
  /\ (is_attr r ->
      same_queries r (attrSetter r enabled (mask AttrUnusedMaxAttr))).
Proof.
  split.
  - apply differ_same_queries.
  - intros Hr. now apply differ_same_queries, sentinel_toggle.
Qed.

Lemma sentinel_bit_inert_witness :
  let r := op_or (mask AttrPrivate) (mask AttrStatic) in
  let r' := attrSetter r true (mask AttrUnusedMaxAttr) in
  is_attr r /\ differ_only_in_bit31 r r' /\ r <> r'
  /\ same_queries r r'
  /\ same_queries r (attrSetter r false (mask AttrUnusedMaxAttr)).
Proof.
  assert (Hr : is_attr (op_or (mask AttrPrivate) (mask AttrStatic)))
    by (vm_compute; split; congruence).
  pose proof (sentinel_toggle _ true Hr) as Hd.
  split; [exact Hr | split; [exact Hd | split; [vm_compute; discriminate |]]].
  split.
  - exact (proj1 (sentinel_bit_inert _ _ true) Hd).
  - exact (proj2 (sentinel_bit_inert _ 0 false) Hr).
Defined.

End Sentinel.

(** ** Further properties of the operators *)

Section Algebra.

Lemma attrSetter_testbit (r f : Attr) (b : bool) (i : Z) :
  0 <= i < 32 ->
  Z.testbit (attrSetter r b f) i
  = if b then Z.testbit r i || Z.testbit f i
    else Z.testbit r i && negb (Z.testbit f i).
Proof.
  intros Hi. destruct b.
  - rewrite set_wrap, to_uint_bits, Z.lor_spec.
    destruct (Z.ltb_spec i 32); [reflexivity | lia].
  - rewrite clear_wrap, to_uint_bits, Z.land_spec, Z.lnot_spec by lia.
    destruct (Z.ltb_spec i 32); [reflexivity | lia].
Qed.

Lemma land_zero_bits (f g : Z) :
  Z.land f g = 0 -> forall i, Z.testbit f i && Z.testbit g i = false.
Proof.
  intros H i. apply (f_equal (fun z => Z.testbit z i)) in H.
  now rewrite Z.land_spec, Z.bits_0 in H.
Qed.

(** X1.  On two registers [operator|] is the bitwise or of the two 32-bit
    patterns and gives a register again, also when bit 31 is set and the
    conversion to [int] inside the operator is negative. *)
Theorem operator_or_is_bitwise_or (a b : Attr) :
  is_attr a -> is_attr b ->
  op_or a b = Z.lor a b /\ is_attr (op_or a b).
Proof.
  intros Ha Hb.
  assert (E : op_or a b = Z.lor a b) by now apply op_or_lor.
  split; [exact E |].
  rewrite E. now apply lor_range.
Qed.

Lemma operator_or_is_bitwise_or_witness :
  let a := mask AttrUnusedMaxAttr in
  let b := mask AttrPublic in
  is_attr a /\ is_attr b /\ to_int a < 0
  /\ op_or a b = Z.lor a b /\ is_attr (op_or a b).
Proof.
  assert (Ha : is_attr (mask AttrUnusedMaxAttr)) by (vm_compute; split; congruence).
  assert (Hb : is_attr (mask AttrPublic)) by (vm_compute; split; congruence).
  split; [exact Ha | split; [exact Hb | split; [reflexivity |]]].
  exact (operator_or_is_bitwise_or _ _ Ha Hb).
Defined.

(** X2.  [operator|] is commutative and associative, and combining a
    second time with the same operand changes nothing; this holds for
    every pair of values, through the conversions. *)
Theorem operator_or_algebra (a b c : Attr) :
  op_or a b = op_or b a
  /\ op_or (op_or a b) c = op_or a (op_or b c)
  /\ op_or (op_or a b) b = op_or a b.
Proof.
  rewrite !op_or_wrap. repeat split; bits i; bool_cases.
Qed.

(** X3.  The last write wins: setting a flag and then clearing it leaves
    what clearing alone leaves, and clearing it and then setting it leaves
    what setting alone leaves. *)
Theorem attrSetter_last_write_wins (r f : Attr) :
  attrSetter (attrSetter r true f) false f = attrSetter r false f
  /\ attrSetter (attrSetter r false f) true f = attrSetter r true f.
Proof.
  rewrite ?set_wrap, ?clear_wrap, ?set_wrap.
  split; bits i; bool_cases.
Qed.

(** X4.  Two calls of [attrSetter] on masks without a common bit commute,
    whatever the two booleans. *)
Theorem attrSetter_commute (r f g : Attr) (x y : bool) :
  Z.land f g = 0 ->
  attrSetter (attrSetter r x f) y g = attrSetter (attrSetter r y g) x f.
Proof.
  intros H. pose proof (land_zero_bits f g H) as Hbit.
  destruct x, y; rewrite ?set_wrap, ?clear_wrap, ?set_wrap;
    bits i; specialize (Hbit i);
    destruct (Z.testbit f i), (Z.testbit g i); try discriminate Hbit;
    bool_cases.
Qed.

Lemma attrSetter_commute_witness :
  let r := mask AttrFinal in
  let f := mask AttrPublic in
  let g := mask AttrStatic in
  Z.land f g = 0
  /\ attrSetter (attrSetter r true f) false g
     = attrSetter (attrSetter r false g) true f.
Proof.
  assert (H : Z.land (mask AttrPublic) (mask AttrStatic) = 0) by reflexivity.
  split; [exact H |].
  exact (attrSetter_commute (mask AttrFinal) _ _ true false H).
Defined.

(** The hypothesis of X4 is needed: on a shared bit the order shows. *)
Example attrSetter_overlap_order :
  attrSetter (attrSetter 0 true VisibilityAttrs) false (mask AttrPublic)
  <> attrSetter (attrSetter 0 false (mask AttrPublic)) true VisibilityAttrs.
Proof. vm_compute. discriminate. Qed.

(** X5.  Setting or clearing the combination of two masks is setting or
    clearing one and then the other. *)
Theorem attrSetter_combined_mask (r f g : Attr) (x : bool) :
  attrSetter r x (op_or f g) = attrSetter (attrSetter r x f) x g.
Proof.
  destruct x; rewrite ?set_wrap, ?clear_wrap, ?set_wrap, op_or_wrap;
    bits i; bool_cases.
Qed.

(** X6.  On a register, setting a mask all of whose bits are present
    changes nothing, and clearing a mask none of whose bits is present
    changes nothing. *)
Theorem attrSetter_noop (r f : Attr) :
  is_attr r ->
  (Z.land r f = f -> attrSetter r true f = r)
  /\ (Z.land r f = 0 -> attrSetter r false f = r).
Proof.
  intros Hr. split; intros H.
  - rewrite set_wrap.
    assert (E : Z.lor r f = r).
    { apply Z.bits_inj'. intros i _. rewrite Z.lor_spec.
      apply (f_equal (fun z => Z.testbit z i)) in H.
      rewrite Z.land_spec in H.
      destruct (Z.testbit r i), (Z.testbit f i); simpl in *; congruence. }
    rewrite E. now apply to_uint_small.
  - rewrite clear_land_lnot by assumption.
    pose proof (land_zero_bits r f H) as Hbit.
    bits i. specialize (Hbit i).
    destruct (Z.testbit r i), (Z.testbit f i); try discriminate Hbit;
      reflexivity.
Qed.

Lemma attrSetter_noop_witness :
  let r := VisibilityAttrs in
  is_attr r
  /\ Z.land r (mask AttrPrivate) = mask AttrPrivate
  /\ Z.land r (mask AttrStatic) = 0
  /\ attrSetter r true (mask AttrPrivate) = r
  /\ attrSetter r false (mask AttrStatic) = r.
Proof.
  assert (Hr : is_attr VisibilityAttrs) by (vm_compute; split; congruence).
  assert (H1 : Z.land VisibilityAttrs (mask AttrPrivate) = mask AttrPrivate)
    by reflexivity.
  assert (H0 : Z.land VisibilityAttrs (mask AttrStatic) = 0) by reflexivity.
  split; [exact Hr | split; [exact H1 | split; [exact H0 | split]]].
  - exact (proj1 (attrSetter_noop _ (mask AttrPrivate) Hr) H1).
  - exact (proj2 (attrSetter_noop _ (mask AttrStatic) Hr) H0).
Defined.

(** X7.  [attrSetter] with [true] never clears a bit of a register, and
    [attrSetter] with [false] never sets one. *)
Theorem attrSetter_monotone (r f : Attr) (i : Z) :
  (is_attr r -> Z.testbit r i = true ->
   Z.testbit (attrSetter r true f) i = true)
  /\ (Z.testbit (attrSetter r false f) i = true -> Z.testbit r i = true).
Proof.
  split.
  - intros Hr Hi.
    destruct (Z.ltb_spec i 0) as [Hneg | Hpos];
      [now rewrite Z.testbit_neg_r in Hi |].
    destruct (Z.ltb_spec i 32) as [Hlt | Hge];
      [| now rewrite (is_attr_bits_high r i Hr Hge) in Hi].
    rewrite attrSetter_testbit by lia. now rewrite Hi.
  - rewrite clear_wrap, to_uint_bits. intros H.
    apply andb_true_iff in H. destruct H as [_ H].
    destruct (Z.ltb_spec i 0) as [Hneg | Hpos];
      [now rewrite Z.testbit_neg_r in H |].
    rewrite Z.land_spec in H. now apply andb_true_iff in H.
Qed.

Lemma attrSetter_monotone_witness :
  let r := op_or (mask AttrFinal) (mask AttrStatic) in
  is_attr r /\ Z.testbit r 6 = true
  /\ Z.testbit (attrSetter r false (mask AttrStatic)) 6 = true
  /\ Z.testbit (attrSetter r true (mask AttrPublic)) 6 = true
  /\ Z.testbit r 6 = true.
Proof.
  assert (Hr : is_attr (op_or (mask AttrFinal) (mask AttrStatic)))
    by (vm_compute; split; congruence).
  assert (H6 : Z.testbit (op_or (mask AttrFinal) (mask AttrStatic)) 6 = true)
    by reflexivity.
  assert (Hc : Z.testbit (attrSetter (op_or (mask AttrFinal) (mask AttrStatic))
                            false (mask AttrStatic)) 6 = true)
    by reflexivity.
  split; [exact Hr | split; [exact H6 | split; [exact Hc | split]]].
  - exact (proj1 (attrSetter_monotone _ (mask AttrPublic) 6) Hr H6).
  - exact (proj2 (attrSetter_monotone _ (mask AttrStatic) 6) Hc).
Defined.

End Algebra.

(** ** Visibility under mutation and combination *)

Section VisibilityComposition.

Lemma attrToVisibilityStr_bits (r : Attr) :
  attrToVisibilityStr r =
    if Z.testbit r 3 then "private"%string
    else if Z.testbit r 2 then "protected"%string
    else "public"%string.
Proof.
  unfold attrToVisibilityStr.
  change (mask AttrPrivate) with (2 ^ 3).
  change (mask AttrProtected) with (2 ^ 2).
  now rewrite !truthy_single by lia.
Qed.

(** X8.  [attrToVisibilityStr] reads the register through
    [VisibilityAttrs] only: two registers with the same [attr &
    VisibilityAttrs] decode alike, and masking a register with
    [VisibilityAttrs] keeps its decoding. *)
Theorem visibility_reads_VisibilityAttrs_only (r r' : Attr) :
  (uint_and r VisibilityAttrs = uint_and r' VisibilityAttrs ->
   attrToVisibilityStr r = attrToVisibilityStr r')
  /\ attrToVisibilityStr (uint_and r VisibilityAttrs) = attrToVisibilityStr r.
Proof.
  assert (Hbit : forall x i, 0 <= i < 32 ->
            Z.testbit (uint_and x VisibilityAttrs) i
            = Z.testbit x i && Z.testbit VisibilityAttrs i).
  { intros x i Hi. unfold uint_and.
    rewrite Z.land_spec, !to_uint_bits.
    destruct (Z.ltb_spec i 32); [reflexivity | lia]. }
  split.
  - intros H. rewrite !attrToVisibilityStr_bits.
    pose proof (Hbit r 3) as P3. pose proof (Hbit r' 3) as P3'.
    pose proof (Hbit r 2) as P2. pose proof (Hbit r' 2) as P2'.
    rewrite H in P3, P2.
    rewrite P3' in P3 by lia. rewrite P2' in P2 by lia.
    change (Z.testbit VisibilityAttrs 3) with true in P3.
    change (Z.testbit VisibilityAttrs 2) with true in P2.
    rewrite !andb_true_r in P3, P2.
    rewrite <- P3, <- P2 by lia. reflexivity.
  - rewrite !attrToVisibilityStr_bits, !Hbit by lia.
    change (Z.testbit VisibilityAttrs 3) with true.
    change (Z.testbit VisibilityAttrs 2) with true.
    now rewrite !andb_true_r.
Qed.

Lemma visibility_reads_VisibilityAttrs_only_witness :
  let r := op_or (mask AttrProtected) (mask AttrStatic) in
  let r' := op_or (mask AttrProtected) (mask AttrFinal) in
  r <> r'
  /\ uint_and r VisibilityAttrs = uint_and r' VisibilityAttrs
  /\ attrToVisibilityStr r = attrToVisibilityStr r'.
Proof.
  assert (H : uint_and (op_or (mask AttrProtected) (mask AttrStatic))
                VisibilityAttrs
              = uint_and (op_or (mask AttrProtected) (mask AttrFinal))
                  VisibilityAttrs) by reflexivity.
  split; [vm_compute; discriminate | split; [exact H |]].
  exact (proj1 (visibility_reads_VisibilityAttrs_only _ _) H).
Defined.

(** X9.  Setting or clearing any enumerator other than [AttrPrivate] and
    [AttrProtected] leaves [attrToVisibilityStr] unchanged; this includes
    [AttrPublic], whose bit the decoder never tests. *)
Theorem visibility_ignores_other_flags (n : AttrName) (r : Attr) (x : bool) :
  n <> AttrPrivate -> n <> AttrProtected ->
  attrToVisibilityStr (attrSetter r x (mask n)) = attrToVisibilityStr r.
Proof.
  intros Hpriv Hprot.
  rewrite !attrToVisibilityStr_bits, !attrSetter_testbit by lia.
  assert (H3 : Z.testbit (mask n) 3 = false)
    by (destruct n; solve [reflexivity | now elim Hpriv]).
  assert (H2 : Z.testbit (mask n) 2 = false)
    by (destruct n; solve [reflexivity | now elim Hprot]).
  rewrite H3, H2. destruct x; simpl;
    now rewrite ?orb_false_r, ?andb_true_r.
Qed.

Lemma visibility_ignores_other_flags_witness :
  AttrPublic <> AttrPrivate /\ AttrPublic <> AttrProtected
  /\ attrToVisibilityStr (attrSetter (mask AttrPrivate) true (mask AttrPublic))
     = attrToVisibilityStr (mask AttrPrivate).
Proof.
  assert (H1 : AttrPublic <> AttrPrivate) by discriminate.
  assert (H2 : AttrPublic <> AttrProtected) by discriminate.
  split; [exact H1 | split; [exact H2 |]].
  exact (visibility_ignores_other_flags AttrPublic (mask AttrPrivate) true H1 H2).
Defined.

(** X10.  Whatever the register held: after setting [AttrPrivate] it
    decodes to private; after clearing [AttrPrivate] and setting
    [AttrProtected] it decodes to protected; after clearing
    [VisibilityAttrs] it decodes to public. *)
Theorem visibility_after_setter (r : Attr) :
  attrToVisibilityStr (attrSetter r true (mask AttrPrivate))
  = "private"%string
  /\ attrToVisibilityStr
       (attrSetter (attrSetter r false (mask AttrPrivate))
                   true (mask AttrProtected))
     = "protected"%string
  /\ attrToVisibilityStr (attrSetter r false VisibilityAttrs)
     = "public"%string.
Proof.
  rewrite !attrToVisibilityStr_bits, !attrSetter_testbit by lia.
  change (Z.testbit (mask AttrPrivate) 3) with true.
  change (Z.testbit (mask AttrPrivate) 2) with false.
  change (Z.testbit (mask AttrProtected) 3) with false.
  change (Z.testbit (mask AttrProtected) 2) with true.
  change (Z.testbit VisibilityAttrs 3) with true.
  change (Z.testbit VisibilityAttrs 2) with true.
  simpl. rewrite !orb_true_r, !andb_false_r. simpl.
  repeat split.
Qed.

(** X11.  The combination of two registers decodes to the more
    restrictive of the two decodings: private when one of them is
    private, otherwise protected when one of them is protected, otherwise
    public. *)
Theorem visibility_of_combination (a b : Attr) :
  attrToVisibilityStr (op_or a b) =
    if ((attrToVisibilityStr a =? "private")
        || (attrToVisibilityStr b =? "private"))%string
    then "private"%string
    else if ((attrToVisibilityStr a =? "protected")
             || (attrToVisibilityStr b =? "protected"))%string
    then "protected"%string
    else "public"%string.
Proof.
  rewrite !attrToVisibilityStr_bits, op_or_wrap, !to_uint_bits, !Z.lor_spec.
  change (3 <? 32) with true. change (2 <? 32) with true.
  destruct (Z.testbit a 3), (Z.testbit b 3),
           (Z.testbit a 2), (Z.testbit b 2); reflexivity.
Qed.

End VisibilityComposition.

(** ** Flags of one kind under mutation *)

Section Frame.

Lemma same_kind_disjoint_bits (k : SubjectKind) (a b : AttrName) :
  applicable k a = true -> applicable k b = true -> a <> b ->
  forall i, Z.testbit (mask a) i && Z.testbit (mask b) i = false.
Proof.
  intros Ha Hb Hne. apply land_zero_bits.
  pose proof (disjoint_on_all k) as D. unfold disjoint_on in D.
  rewrite forallb_forall in D.
  specialize (D a (catalog_complete a)).
  rewrite forallb_forall in D.
  specialize (D b (catalog_complete b)).
  rewrite Ha, Hb, (AttrName_beq_neq a b Hne) in D. simpl in D.
  rewrite uint_and_land in D by apply mask_range.
  now apply Z.eqb_eq.
Qed.

(** X12.  Within one kind, setting or clearing an applicable enumerator
    does not change the test [attrs & other] of any other applicable
    enumerator. *)
Theorem attrSetter_frame (k : SubjectKind) (a b : AttrName)
        (r : Attr) (x : bool) :
  applicable k a = true -> applicable k b = true -> a <> b ->
  truthy (uint_and (attrSetter r x (mask a)) (mask b))
  = truthy (uint_and r (mask b)).
Proof.
  intros Ha Hb Hne.
  pose proof (same_kind_disjoint_bits k a b Ha Hb Hne) as Hdis.
  pose proof (mask_shape b) as S.
  destruct (bitpos b) as [p |].
  - destruct S as (_ & Hp & E). rewrite E in *.
    rewrite !truthy_single, attrSetter_testbit by assumption.
    specialize (Hdis p).
    rewrite Z.pow2_bits_eqb, Z.eqb_refl, andb_true_r in Hdis by lia.
    rewrite Hdis. destruct x; simpl;
      now rewrite ?orb_false_r, ?andb_true_r.
  - destruct S as (_ & ->). unfold uint_and.
    now rewrite !Z.land_0_r.
Qed.

Lemma attrSetter_frame_witness :
  applicable Property AttrStatic = true
  /\ applicable Property AttrIsReadonly = true
  /\ AttrStatic <> AttrIsReadonly
  /\ truthy (uint_and (attrSetter (mask AttrIsReadonly) true (mask AttrStatic))
                      (mask AttrIsReadonly))
     = truthy (uint_and (mask AttrIsReadonly) (mask AttrIsReadonly)).
Proof.
  assert (Ha : applicable Property AttrStatic = true) by reflexivity.
  assert (Hb : applicable Property AttrIsReadonly = true) by reflexivity.
  assert (Hne : AttrStatic <> AttrIsReadonly) by discriminate.
  split; [exact Ha | split; [exact Hb | split; [exact Hne |]]].
  exact (attrSetter_frame Property AttrStatic AttrIsReadonly
           (mask AttrIsReadonly) true Ha Hb Hne).
Defined.

(** Across kinds the frame fails: [AttrEnum] of classes and [AttrStatic]
    of methods are the same bit. *)
Example attrSetter_frame_across_kinds :
  truthy (uint_and (attrSetter 0 true (mask AttrEnum)) (mask AttrStatic))
  <> truthy (uint_and 0 (mask AttrStatic)).
Proof. vm_compute. discriminate. Qed.

(** X13.  For every enumerator other than [AttrNone] the test
    [attrs & flag] used as a condition and the comparison
    [(attrs & flag) == flag] agree, each enumerator being one bit. *)
Theorem nonzero_test_is_all_bits_test (n : AttrName) (r : Attr) :
  n <> AttrNone ->
  truthy (uint_and r (mask n)) = hasFlag r (mask n).
Proof.
  intros Hn. pose proof (mask_shape n) as S.
  destruct (bitpos n) as [p |].
  - destruct S as (_ & Hp & ->).
    now rewrite truthy_single, hasFlag_single.
  - now destruct S.
Qed.

Lemma nonzero_test_is_all_bits_test_witness :
  AttrStatic <> AttrNone
  /\ truthy (uint_and VisibilityAttrs (mask AttrStatic))
     = hasFlag VisibilityAttrs (mask AttrStatic).
Proof.
  assert (Hn : AttrStatic <> AttrNone) by discriminate.
  split; [exact Hn |].
  exact (nonzero_test_is_all_bits_test AttrStatic VisibilityAttrs Hn).
Defined.

(** On [VisibilityAttrs], three bits, and on the empty [AttrNone] the two
    tests differ. *)
Example nonzero_test_differs_on_masks :
  truthy (uint_and (mask AttrPublic) VisibilityAttrs)
  <> hasFlag (mask AttrPublic) VisibilityAttrs
  /\ truthy (uint_and (mask AttrPublic) (mask AttrNone))
     <> hasFlag (mask AttrPublic) (mask AttrNone).
Proof. vm_compute. split; discriminate. Qed.

(** X14.  The width each kind needs: the marked enumerators of classes
    reach position 30, those of properties position 26 and those of
    methods position 29, and no marked enumerator of a kind lies above
    the top position of that kind. *)
Theorem width_per_kind (k : SubjectKind) (n : AttrName) :
  top_position Class = 30
  /\ top_position Property = 26
  /\ top_position Method = 29
  /\ (marked k n = true -> within_low_bits (top_position k + 1) (mask n)).
Proof.
  split; [reflexivity | split; [reflexivity | split; [reflexivity |]]].
  intros H. apply within_low_bits_lt.
  - destruct k; vm_compute; congruence.
  - destruct k, n; try discriminate H; vm_compute; split; congruence.
Qed.

Lemma width_per_kind_witness :
  marked Property AttrIsReadonly = true
  /\ within_low_bits 27 (mask AttrIsReadonly)
  /\ Z.testbit (mask AttrIsReadonly) 26 = true.
Proof.
  assert (H : marked Property AttrIsReadonly = true) by reflexivity.
  split; [exact H | split; [| reflexivity]].
  exact (proj2 (proj2 (proj2 (width_per_kind Property AttrIsReadonly))) H).
Defined.

End Frame.

(** ** Masks of several bits and the free positions *)

Section Masks.

(** X15.  For any mask that is a register, one bit or several: after
    [attrSetter] with [true] every bit of the mask is present in the
    result, and after [attrSetter] with [false] none is. *)
Theorem attrSetter_mask_round_trip (r f : Attr) :
  is_attr f ->
  uint_and (attrSetter r true f) f = f
  /\ uint_and (attrSetter r false f) f = 0.
Proof.
  intros Hf. rewrite !uint_and_land by assumption.
  rewrite set_wrap, clear_wrap. split.
  - bits i. destruct (Z.ltb_spec i 32).
    + simpl. destruct (Z.testbit r i), (Z.testbit f i); reflexivity.
    + rewrite (is_attr_bits_high f i Hf) by assumption. reflexivity.
  - bits i. rewrite Z.bits_0.
    destruct (i <? 32), (Z.testbit r i), (Z.testbit f i); reflexivity.
Qed.

Lemma attrSetter_mask_round_trip_witness :
  let r := op_or (mask AttrProtected) (mask AttrStatic) in
  is_attr VisibilityAttrs
  /\ uint_and (attrSetter r true VisibilityAttrs) VisibilityAttrs
     = VisibilityAttrs
  /\ uint_and (attrSetter r false VisibilityAttrs) VisibilityAttrs = 0.
Proof.
  assert (Hf : is_attr VisibilityAttrs) by (vm_compute; split; congruence).
  split; [exact Hf |].
  exact (attrSetter_mask_round_trip
           (op_or (mask AttrProtected) (mask AttrStatic)) VisibilityAttrs Hf).
Defined.

(** X16.  The enumeration uses every bit position from 0 to 31 except 14,
    15, 16, 17 and 22, and no position outside 0 to 31. *)
Theorem used_positions (i : Z) :
  free_positions = [14; 15; 16; 17; 22]
  /\ used_position i
     = (0 <=? i) && (i <? 32) && negb (existsb (Z.eqb i) free_positions).
Proof.
  split; [reflexivity |].
  destruct (Z.leb_spec 0 i) as [Hpos | Hneg].
  - destruct (Z.ltb_spec i 32) as [Hlt | Hge].
    + assert (H : In i (map Z.of_nat (seq 0 32))).
      { replace i with (Z.of_nat (Z.to_nat i)) by lia.
        apply in_map, in_seq. lia. }
      simpl in H.
      repeat (destruct H as [<- | H]; [reflexivity |]).
      contradiction.
    + simpl. unfold used_position.
      apply not_true_is_false. intros H.
      apply existsb_exists in H. destruct H as (n & _ & Hn).
      now rewrite (is_attr_bits_high _ i (mask_range n) Hge) in Hn.
  - simpl. unfold used_position.
    apply not_true_is_false. intros H.
    apply existsb_exists in H. destruct H as (n & _ & Hn).
    now rewrite Z.testbit_neg_r in Hn.
Qed.

End Masks.
